(** * Source / Dataset resolution of the nextstrain.org server

    A shallow embedding of [auspice/server/sources.js]: the Source class
    hierarchy, the Dataset classes that turn path parts into file base names
    and URLs, the listing of a private bucket, the group check of the private
    tenant and the exported registry.

    JavaScript strings are modelled by [string], arrays of strings that are
    shared between caller and callee by references into a store, thrown
    values by [thrown], and the classes by their class table. *)

From Stdlib Require Import Ascii.
From stdpp Require Import base option list gmap strings.


(** ** Completions: a call returns normally or throws *)

Inductive thrown : Type :=
  | ThrowString (msg : string)   (* [throw "..."] *)
  | TypeError (msg : string).    (* raised by the runtime *)

Inductive result (A : Type) : Type :=
  | Ok (a : A)
  | Throw (e : thrown).
Arguments Ok {A} a.
Arguments Throw {A} e.

Definition rbind {A B} (r : result A) (k : A → result B) : result B :=
  match r with
  | Ok a => k a
  | Throw e => Throw e
  end.

Fixpoint rmapM {A B} (f : A → result B) (l : list A) : result (list B) :=
  match l with
  | [] => Ok []
  | x :: l' => rbind (f x) (λ y, rbind (rmapM f l') (λ ys, Ok (y :: ys)))
  end.

(** ** String built-ins used by the source *)

(** [parts.join(sep)] on an array of strings. *)
Fixpoint join (sep : string) (parts : list string) : string :=
  match parts with
  | [] => ""
  | [p] => p
  | p :: rest => p +:+ sep +:+ join sep rest
  end.

(** [s.split(c)] for a separator of one character; the result is never
    empty: [""] splits into [[""]]. *)
Fixpoint split (sep : ascii) (s : string) : list string :=
  match s with
  | EmptyString => [""]
  | String c s' =>
      if Ascii.eqb c sep then "" :: split sep s'
      else match split sep s' with
           | [] => [String c ""]
           | w :: ws => String c w :: ws
           end
  end.

(** [s.endsWith(suffix)]. *)
Fixpoint endsWith (s suffix : string) : bool :=
  String.eqb s suffix ||
  match s with
  | EmptyString => false
  | String _ s' => endsWith s' suffix
  end.

(** [s.replace(/lit$/, "")] for a pattern that is the literal text [lit]
    anchored at the end of the input: the leftmost position where [lit]
    matches and the input ends is cut off; without a match [s] is returned
    unchanged. *)
Fixpoint replace_at_end (lit s : string) : string :=
  if String.eqb s lit then ""
  else match s with
       | EmptyString => ""
       | String c s' => String c (replace_at_end lit s')
       end.

(** Conversion of a possibly undefined string in a template literal. *)
Definition ToString (v : option string) : string :=
  match v with
  | Some s => s
  | None => "undefined"
  end.

(** [arr.includes(x)] on an array of strings. *)
Definition includes (arr : list string) (x : string) : bool :=
  existsb (String.eqb x) arr.

(** Whether character [c] occurs in [s]. *)
Fixpoint contains (c : ascii) (s : string) : bool :=
  match s with
  | EmptyString => false
  | String a s' => Ascii.eqb a c || contains c s'
  end.

(** ** The store of arrays

    [pathParts] is an array handed in by the caller and kept by reference,
    so arrays live in a store and are named by their index in it. *)

Definition ref := nat.
Definition store := list (list string).

Definition M (A : Type) : Type := store → result A * store.

Definition ret {A} (a : A) : M A := λ h, (Ok a, h).
Definition bind {A B} (m : M A) (k : A → M B) : M B :=
  λ h, match m h with
       | (Ok a, h') => k a h'
       | (Throw e, h') => (Throw e, h')
       end.
Definition lift {A} (r : result A) : M A := λ h, (r, h).

Notation "'let*' x ':=' m 'in' k" := (bind m (λ x, k))
  (at level 10, x name, m at level 100, k at level 200).

(** Reading an array; a reference that names nothing cannot be built by the
    program and is reported as a runtime fault. *)
Definition deref (a : ref) : M (list string) :=
  λ h, match h !! a with
       | Some xs => (Ok xs, h)
       | None => (Throw (TypeError "not an array"), h)
       end.

Definition alloc (xs : list string) : M ref :=
  λ h, (Ok (length h), h ++ [xs]).

(** [a.slice(start)]: a fresh array holding the elements from [start] on. *)
Definition Array_slice (a : ref) (start : nat) : M ref :=
  let* xs := deref a in alloc (drop start xs).

(** [a.join(sep)]. *)
Definition Array_join (a : ref) (sep : string) : M string :=
  let* xs := deref a in ret (join sep xs).

(** [a[i]]: undefined beyond the end. *)
Definition Array_get (a : ref) (i : nat) : M (option string) :=
  let* xs := deref a in ret (xs !! i).

(** ** Data *)

(** An entry of a listing: [{request: "..."}]. *)
Record Listing : Type := { request : string }.

(** An object of a bucket listing, of which only [Key] is read. *)
Record S3Object : Type := { Key : string }.

(** The user of a request: [undefined] is [None]; of a user object only
    [groups] is read, which may be missing. *)
Record UserObj : Type := { groups : option (list string) }.
Definition User : Type := option UserObj.

(** ** The Source classes

    No Source class has fields of its own, so an instance [new C()] is
    determined by its class [C]; [this] is passed as the class of the
    receiver, which is what dynamic dispatch of [this.name] and
    [this.bucket] depends on. *)

Inductive SourceClass : Type :=
  | Source
  | LiveSource
  | StagingSource
  | CommunitySource
  | PrivateS3Source
  | InrbDrcSource.

Global Instance SourceClass_eq_dec : EqDecision SourceClass.
Proof. solve_decision. Defined.

(** [class C extends P] *)
Definition extends (c : SourceClass) : option SourceClass :=
  match c with
  | Source => None
  | LiveSource | StagingSource | CommunitySource | PrivateS3Source => Some Source
  | InrbDrcSource => Some PrivateS3Source
  end.

(** Member lookup along the prototype chain: [own c] is the member as
    class [c] itself declares it, if it does. *)
Fixpoint provider_from {A} (own : SourceClass → option A)
    (fuel : nat) (c : SourceClass) : option SourceClass :=
  match own c with
  | Some _ => Some c
  | None =>
      match fuel, extends c with
      | S n, Some p => provider_from own n p
      | _, _ => None
      end
  end.

(** The longest chain, InrbDrcSource, PrivateS3Source, Source, takes two
    steps. *)
Definition provider {A} (own : SourceClass → option A)
    (c : SourceClass) : option SourceClass :=
  provider_from own 2 c.

Definition member {A} (own : SourceClass → option A)
    (c : SourceClass) : option A :=
  match provider own c with
  | Some d => own d
  | None => None
  end.

(** A member that no class of the chain declares is [undefined]; using it
    as a function is a TypeError. *)
Definition invoke {A B} (own : SourceClass → option A) (c : SourceClass)
    (k : A → result B) : result B :=
  match member own c with
  | Some f => k f
  | None => Throw (TypeError "undefined is not a function")
  end.

(** [c] does not override a member of the base class: the lookup from [c]
    ends in [Source]. *)
Definition inherits_default {A} (own : SourceClass → option A)
    (c : SourceClass) : Prop :=
  provider own c = Some Source.

(** *** Getters *)

Definition name_own (c : SourceClass) : option (result string) :=
  match c with
  | Source => Some (Throw (ThrowString "name() must be implemented by subclasses"))
  | LiveSource => Some (Ok "live")
  | StagingSource => Some (Ok "staging")
  | CommunitySource => Some (Ok "community")
  | PrivateS3Source => None
  | InrbDrcSource => Some (Ok "inrb-drc")
  end.

Definition name (this : SourceClass) : result string :=
  invoke name_own this id.

Definition baseUrl_own (c : SourceClass) : option (result string) :=
  match c with
  | Source => Some (Throw (ThrowString "baseUrl() must be implemented by subclasses"))
  | LiveSource => Some (Ok "http://data.nextstrain.org/")
  | StagingSource => Some (Ok "http://staging.nextstrain.org/")
  | CommunitySource | PrivateS3Source | InrbDrcSource => None
  end.

Definition baseUrl (this : SourceClass) : result string :=
  invoke baseUrl_own this id.

Definition bucket_own (c : SourceClass) : option string :=
  match c with
  | InrbDrcSource => Some "nextstrain-inrb"
  | _ => None
  end.

(** [this.bucket]; [None] is [undefined]. *)
Definition bucket (this : SourceClass) : option string :=
  member bucket_own this.

(** *** Datasets *)

Inductive DatasetClass : Type :=
  | Dataset
  | CommunityDataset
  | PrivateS3Dataset.

(** A Dataset object.  Its two fields are assigned by the constructor and
    by nothing else; [pathParts] holds the caller's array itself, not a
    copy. *)
Record DatasetObj : Type := {
  class_of : DatasetClass;
  source : SourceClass;
  pathParts : ref
}.

(** [new C(source, pathParts)]; the subclasses inherit the constructor. *)
Definition new_Dataset (C : DatasetClass) (source : SourceClass)
    (pathParts : ref) : DatasetObj :=
  {| class_of := C; source := source; pathParts := pathParts |}.

Definition dataset_own (c : SourceClass)
    : option (SourceClass → ref → DatasetObj) :=
  match c with
  | Source => Some (new_Dataset Dataset)
  | CommunitySource => Some (new_Dataset CommunityDataset)
  | PrivateS3Source => Some (new_Dataset PrivateS3Dataset)
  | LiveSource | StagingSource | InrbDrcSource => None
  end.

Definition dataset (this : SourceClass) (pathParts : ref) : result DatasetObj :=
  invoke dataset_own this (λ f, Ok (f this pathParts)).

(** *** Visibility *)

Definition visibleToUser_own (c : SourceClass)
    : option (User → result bool) :=
  match c with
  | Source => Some (λ _, Ok true)
  | PrivateS3Source =>
      Some (λ _, Throw (ThrowString
        "visibleToUser() must be implemented explicitly by subclasses (not inherited from Source)"))
  | InrbDrcSource =>
      (* !!user && !!user.groups && user.groups.includes("inrb") *)
      Some (λ user,
        Ok match user with
           | None => false
           | Some u =>
               match groups u with
               | None => false
               | Some gs => includes gs "inrb"
               end
           end)
  | LiveSource | StagingSource | CommunitySource => None
  end.

Definition visibleToUser (this : SourceClass) (user : User) : result bool :=
  invoke visibleToUser_own this (λ f, f user).

(** *** Listings and URLs

    What the module takes from its environment: the two process-wide tables
    [global.availableDatasets] and [global.availableNarratives] ([None] when
    the global is not set), the S3 client and the URL class of the
    platform.  A rejected promise is a [Throw]. *)

Section Platform.

Variable global_availableDatasets : option (gmap string (list Listing)).
Variable global_availableNarratives : option (gmap string (list Listing)).

(** [await S3.listObjectsV2({Bucket}).promise()], giving [Contents]. *)
Variable S3_listObjectsV2 : option string → result (list S3Object).

(** [S3.getSignedUrl(operation, {Bucket, Key})]. *)
Variable S3_getSignedUrl : string → option string → string → result string.

(** [new URL(input, base).toString()]. *)
Variable URL_toString : string → string → result string.

(** [global.table[key] || []] *)
Definition global_lookup (table : option (gmap string (list Listing)))
    (key : string) : result (list Listing) :=
  match table with
  | None => Throw (TypeError "Cannot read property of undefined")
  | Some t => Ok (default [] (t !! key))
  end.

(** [file => file.replace(/_tree[.]json$/, "").split("_").join("/")] *)
Definition path_of_file (file : string) : string :=
  join "/" (split "_" (replace_at_end "_tree.json" file)).

Definition availableDatasets_own (c : SourceClass)
    : option (SourceClass → result (list Listing)) :=
  match c with
  | Source => Some (λ _, Ok [])
  | LiveSource | StagingSource =>
      Some (λ this,
        rbind (name this) (global_lookup global_availableDatasets))
  | PrivateS3Source =>
      Some (λ this,
        rbind (S3_listObjectsV2 (bucket this)) (λ Contents,
        let files :=
          List.filter (λ file, endsWith file "_tree.json")
                 (map Key Contents) in
        let paths := map path_of_file files in
        rmapM (λ path,
                rbind (name this) (λ n,
                Ok {| request := join "/" [n; path] |}))
              paths))
  | CommunitySource | InrbDrcSource => None
  end.

Definition availableDatasets (this : SourceClass) : result (list Listing) :=
  invoke availableDatasets_own this (λ f, f this).

Definition availableNarratives_own (c : SourceClass)
    : option (SourceClass → result (list Listing)) :=
  match c with
  | Source => Some (λ _, Ok [])
  | LiveSource | StagingSource =>
      Some (λ this,
        rbind (name this) (global_lookup global_availableNarratives))
  | CommunitySource | PrivateS3Source | InrbDrcSource => None
  end.

Definition availableNarratives (this : SourceClass) : result (list Listing) :=
  invoke availableNarratives_own this (λ f, f this).

(** [get baseParts()]: a copy of [pathParts], for a community dataset
    without its first element. *)
Definition baseParts (this : DatasetObj) : M ref :=
  match class_of this with
  | CommunityDataset => Array_slice (pathParts this) 1
  | Dataset | PrivateS3Dataset => Array_slice (pathParts this) 0
  end.

Definition baseNameFor (this : DatasetObj) (type : string) : M string :=
  let* parts := baseParts this in
  let* baseName := Array_join parts "_" in
  ret (baseName +:+ "_" +:+ type +:+ ".json").

(** The base URL of a community dataset's repository. *)
Definition repoBaseUrl (owner repo : option string) : string :=
  "https://raw.githubusercontent.com/" +:+ ToString owner +:+ "/" +:+
  ToString repo +:+ "/master/auspice/".

Definition urlFor (this : DatasetObj) (type : string) : M string :=
  match class_of this with
  | Dataset =>
      let* input := baseNameFor this type in
      let* base := lift (baseUrl (source this)) in
      lift (URL_toString input base)
  | CommunityDataset =>
      let* p0 := Array_get (pathParts this) 0 in
      let* p1 := Array_get (pathParts this) 1 in
      let* input := baseNameFor this type in
      lift (URL_toString input (repoBaseUrl p0 p1))
  | PrivateS3Dataset =>
      let Bucket := bucket (source this) in
      let* Key := baseNameFor this type in
      lift (S3_getSignedUrl "getObject" Bucket Key)
  end.

End Platform.

(** ** The registry *)

(** [new Map(entries)]: the entries are set in order, a later one
    replacing an earlier one with the same key. *)
Definition new_Map {V} (entries : list (string * V)) : gmap string V :=
  foldl (λ m kv, <[kv.1 := kv.2]> m) ∅ entries.

(** [map.get(key)]; [None] is [undefined]. *)
Definition Map_get {V} (m : gmap string V) (key : string) : option V :=
  m !! key.

Definition entries : list (string * SourceClass) :=
  [ ("live", LiveSource);
    ("staging", StagingSource);
    ("community", CommunitySource);
    ("inrb-drc", InrbDrcSource) ].

Definition module_exports : gmap string SourceClass := new_Map entries.

(** ** Repeated calls *)

(** The store after [k] calls of [baseNameFor] in a row. *)
Fixpoint after_calls (k : nat) (d : DatasetObj) (type : string)
    (h : store) : store :=
  match k with
  | 0 => h
  | S k' => after_calls k' d type (snd (baseNameFor d type h))
  end.

(** How many leading path parts a Dataset class leaves out of the name. *)
Definition skipped (C : DatasetClass) : nat :=
  match C with
  | CommunityDataset => 1
  | Dataset | PrivateS3Dataset => 0
  end.

(** * Properties *)

(** ** Strings *)

Lemma app_cons c s t : String c s +:+ t = String c (s +:+ t).
Proof. reflexivity. Qed.

Lemma app_empty_r s : s +:+ "" = s.
Proof. induction s as [|c s IH]; [done|]. by rewrite app_cons, IH. Qed.

Lemma app_assoc s t u : (s +:+ t) +:+ u = s +:+ t +:+ u.
Proof. induction s as [|c s IH]; [done|]. by rewrite !app_cons, IH. Qed.

Lemma length_app s t :
  String.length (s +:+ t) = String.length s + String.length t.
Proof. induction s as [|c s IH]; [done|]. rewrite app_cons. simpl. by rewrite IH. Qed.

Lemma cons_app_neq c p lit : String c (p +:+ lit) ≠ lit.
Proof.
  intros E. apply (f_equal String.length) in E.
  simpl in E. rewrite length_app in E. lia.
Qed.

Lemma endsWith_unfold s suffix :
  endsWith s suffix =
    String.eqb s suffix ||
    match s with
    | EmptyString => false
    | String _ s' => endsWith s' suffix
    end.
Proof. by destruct s. Qed.

Lemma replace_at_end_unfold lit s :
  replace_at_end lit s =
    if String.eqb s lit then ""
    else match s with
         | EmptyString => ""
         | String c s' => String c (replace_at_end lit s')
         end.
Proof. by destruct s. Qed.

Lemma endsWith_app p suffix : endsWith (p +:+ suffix) suffix = true.
Proof.
  induction p as [|c p IH]; rewrite endsWith_unfold.
  - by rewrite String.eqb_refl.
  - rewrite app_cons, IH. apply orb_true_r.
Qed.

Lemma endsWith_spec s suffix :
  endsWith s suffix = true ↔ ∃ p, s = p +:+ suffix.
Proof.
  split; [|intros [p ->]; apply endsWith_app].
  induction s as [|c s IH]; rewrite endsWith_unfold.
  - rewrite orb_false_r. intros ->%String.eqb_eq. by exists "".
  - intros [->%String.eqb_eq | H]%orb_true_iff; [by exists ""|].
    destruct (IH H) as [p ->]. by exists (String c p).
Qed.

Lemma replace_at_end_app lit p : replace_at_end lit (p +:+ lit) = p.
Proof.
  induction p as [|c p IH]; rewrite replace_at_end_unfold.
  - by rewrite String.eqb_refl.
  - rewrite app_cons.
    destruct (String.eqb_spec (String c (p +:+ lit)) lit) as [E|_].
    + by apply cons_app_neq in E.
    + by rewrite IH.
Qed.

Lemma replace_at_end_other lit s :
  endsWith s lit = false → replace_at_end lit s = s.
Proof.
  induction s as [|c s IH];
    rewrite endsWith_unfold, replace_at_end_unfold.
  - by intros [-> _]%orb_false_iff.
  - intros [-> H]%orb_false_iff. by rewrite IH.
Qed.

Lemma split_not_nil sep s : split sep s ≠ [].
Proof.
  destruct s as [|c s]; simpl; [done|].
  destruct (Ascii.eqb c sep); [done|]. by destruct (split sep s).
Qed.

Lemma split_without sep s : contains sep s = false → split sep s = [s].
Proof.
  induction s as [|c s IH]; simpl; [done|].
  intros [-> H]%orb_false_iff. by rewrite IH.
Qed.

Lemma split_app sep p s :
  contains sep p = false →
  split sep (p +:+ String sep s) = p :: split sep s.
Proof.
  induction p as [|c p IH]; simpl.
  - intros _. change ("" +:+ String sep s) with (String sep s).
    simpl. by rewrite Ascii.eqb_refl.
  - intros [Hc H]%orb_false_iff. by rewrite Hc, IH.
Qed.

(** Splitting undoes joining when no part holds the separator. *)
Lemma split_join sep parts :
  parts ≠ [] →
  Forall (λ p, contains sep p = false) parts →
  split sep (join (String sep "") parts) = parts.
Proof.
  intros Hne Hall. induction Hall as [|p rest Hp Hrest IH]; [done|].
  destruct rest as [|q rest]; simpl.
  - by apply split_without.
  - change (String sep "" +:+ ?t) with (String sep t).
    rewrite split_app by done. f_equal. by apply IH.
Qed.

(** ** The store *)

Lemma deref_Some (a : ref) (h : store) xs :
  h !! a = Some xs → deref a h = (Ok xs, h).
Proof. unfold deref. by intros ->. Qed.

Lemma deref_None (a : ref) (h : store) :
  h !! a = None → deref a h = (Throw (TypeError "not an array"), h).
Proof. unfold deref. by intros ->. Qed.

(** Allocation leaves every array of the store as it was. *)
Lemma lookup_alloc (h : store) xs (a : ref) :
  a < length h → (h ++ [xs]) !! a = h !! a.
Proof. intros. by apply lookup_app_l. Qed.

Lemma lookup_alloc_new (h : store) xs : (h ++ [xs]) !! length h = Some xs.
Proof. by rewrite lookup_app_r, Nat.sub_diag. Qed.

Lemma baseNameFor_Some d type (h : store) parts :
  h !! pathParts d = Some parts →
  baseNameFor d type h =
    (Ok (join "_" (drop (skipped (class_of d)) parts) +:+ "_" +:+ type +:+ ".json"),
     h ++ [drop (skipped (class_of d)) parts]).
Proof.
  intros Hp. unfold baseNameFor, baseParts, Array_slice, Array_join, bind.
  destruct (class_of d); simpl;
    rewrite (deref_Some _ _ _ Hp); unfold alloc;
    by rewrite (deref_Some _ _ _ (lookup_alloc_new h _)).
Qed.

Lemma baseNameFor_None d type (h : store) :
  h !! pathParts d = None →
  baseNameFor d type h = (Throw (TypeError "not an array"), h).
Proof.
  intros Hp. unfold baseNameFor, baseParts, Array_slice, bind.
  destruct (class_of d); by rewrite (deref_None _ _ Hp).
Qed.

(** One call allocates the copy and touches nothing else, so a second call
    sees the same path parts. *)
Lemma baseNameFor_step d type (h : store) :
  snd (baseNameFor d type h) !! pathParts d = h !! pathParts d ∧
  fst (baseNameFor d type (snd (baseNameFor d type h))) =
    fst (baseNameFor d type h).
Proof.
  destruct (h !! pathParts d) as [parts|] eqn:Hp.
  - assert ((h ++ [drop (skipped (class_of d)) parts]) !! pathParts d
            = Some parts) as Hp'.
    { rewrite lookup_alloc; [done|]. by eapply lookup_lt_Some. }
    rewrite (baseNameFor_Some _ _ _ _ Hp). simpl.
    by rewrite (baseNameFor_Some _ _ _ _ Hp').
  - rewrite (baseNameFor_None _ _ _ Hp). simpl.
    by rewrite (baseNameFor_None _ _ _ Hp).
Qed.

(** ** The class table *)

(** A member that [Source] declares is found from every class. *)
Lemma member_of_Source {A} (own : SourceClass → option A) (c : SourceClass) :
  is_Some (own Source) → is_Some (member own c).
Proof.
  intros [x Hx]. unfold member, provider.
  destruct c; simpl; rewrite ?Hx; eauto;
    repeat (match goal with |- context [own ?c] => destruct (own c) eqn:? end;
            simpl; rewrite ?Hx; eauto).
Qed.

Lemma rmapM_Ok {A B} (f : A → B) (l : list A) :
  rmapM (λ x, Ok (f x)) l = Ok (map f l).
Proof. induction l as [|x l IH]; simpl; [done|]. by rewrite IH. Qed.

Lemma S3Object_eta o : {| Key := Key o |} = o.
Proof. by destruct o. Qed.

(** ** Capabilities of the Source classes *)

(** C6: an unimplemented required capability throws.  Reading [baseUrl] on
    the abstract Source, or on a variant that never defines it, throws, and
    [visibleToUser] on PrivateS3Source throws for every user instead of
    answering with the public default. *)
Theorem unimplemented_capability_throws :
  baseUrl Source
    = Throw (ThrowString "baseUrl() must be implemented by subclasses") ∧
  baseUrl CommunitySource = baseUrl Source ∧
  baseUrl PrivateS3Source = baseUrl Source ∧
  baseUrl InrbDrcSource = baseUrl Source ∧
  (∀ user : User,
     visibleToUser PrivateS3Source user
       = Throw (ThrowString
           "visibleToUser() must be implemented explicitly by subclasses (not inherited from Source)")) ∧
  (∀ (user : User) (b : bool), visibleToUser PrivateS3Source user ≠ Ok b).
Proof. repeat split; done. Qed.

(** C8: the defaults of Source.  A class whose lookup of [visibleToUser]
    ends in Source answers [true] for every user, the absent one included;
    one whose lookup of [availableDatasets] or [availableNarratives] ends in
    Source answers with the empty listing.  These classes are listed. *)
Theorem default_capabilities
    (gAD gAN : option (gmap string (list Listing)))
    (S3list : option string → result (list S3Object)) (c : SourceClass) :
  (inherits_default visibleToUser_own c →
     ∀ user : User, visibleToUser c user = Ok true) ∧
  (inherits_default (availableDatasets_own gAD S3list) c →
     availableDatasets gAD S3list c = Ok []) ∧
  (inherits_default (availableNarratives_own gAN) c →
     availableNarratives gAN c = Ok []) ∧
  (inherits_default visibleToUser_own c ↔
     c ∈ [Source; LiveSource; StagingSource; CommunitySource]) ∧
  (inherits_default (availableDatasets_own gAD S3list) c ↔
     c ∈ [Source; CommunitySource]) ∧
  (inherits_default (availableNarratives_own gAN) c ↔
     c ∈ [Source; CommunitySource; PrivateS3Source; InrbDrcSource]).
Proof.
  unfold inherits_default.
  destruct c; split_and!; try done; by apply (bool_decide_unpack _).
Qed.

Lemma default_capabilities_witness :
  visibleToUser CommunitySource None = Ok true ∧
  availableDatasets None (λ _, Ok []) CommunitySource = Ok [] ∧
  availableNarratives None InrbDrcSource = Ok [].
Proof.
  pose proof (default_capabilities None None (λ _, Ok []) CommunitySource)
    as (Hv & Hd & _).
  pose proof (default_capabilities None None (λ _, Ok []) InrbDrcSource)
    as (_ & _ & Hn & _).
  split; [apply Hv; reflexivity|].
  split; [apply Hd; reflexivity|apply Hn; reflexivity].
Defined.

(** ** Visibility of the private tenant *)

(** C2: [visibleToUser] of InrbDrcSource never throws, and answers [true]
    exactly when the user is present, has [groups], and the tenant's group
    "inrb" is among them; it is [false] for an undefined user, for [{}] and
    for [{groups: []}], and [true] for [{groups: ["inrb"]}]. *)
Theorem inrb_visibleToUser :
  (∀ user : User, ∃ b : bool,
     visibleToUser InrbDrcSource user = Ok b ∧
     (b = true ↔
        ∃ u gs, user = Some u ∧ groups u = Some gs ∧ "inrb" ∈ gs)) ∧
  visibleToUser InrbDrcSource None = Ok false ∧
  visibleToUser InrbDrcSource (Some {| groups := None |}) = Ok false ∧
  visibleToUser InrbDrcSource (Some {| groups := Some [] |}) = Ok false ∧
  visibleToUser InrbDrcSource (Some {| groups := Some ["inrb"] |}) = Ok true.
Proof.
  split; [|done].
  intros [[[gs|]]|]; eexists; (split; [reflexivity|]); simpl.
  - unfold includes. rewrite existsb_exists. split.
    + intros (x & Hx & ->%String.eqb_eq).
      exists {| groups := Some gs |}, gs. by rewrite list_elem_of_In.
    + intros (u & gs' & [= <-] & [= <-] & Hin). simpl.
      exists "inrb". split; [by apply list_elem_of_In|done].
  - split; [done|]. by intros (u & gs & [= <-] & ? & _).
  - split; [done|]. by intros (u & gs & ? & _).
Qed.

(** The group that is checked is "inrb", which is not the name of the
    source: membership in a group called "inrb-drc" gives no access. *)
Lemma inrb_group_is_not_source_name :
  name InrbDrcSource = Ok "inrb-drc" ∧
  visibleToUser InrbDrcSource (Some {| groups := Some ["inrb-drc"] |})
    = Ok false.
Proof. done. Qed.

(** ** The registry *)

Lemma module_exports_lookup (key : string) :
  Map_get module_exports key =
    if decide (key = "inrb-drc") then Some InrbDrcSource
    else if decide (key = "community") then Some CommunitySource
    else if decide (key = "staging") then Some StagingSource
    else if decide (key = "live") then Some LiveSource
    else None.
Proof.
  unfold Map_get, module_exports, new_Map, entries. simpl.
  repeat (rewrite lookup_insert; case_decide; simplify_eq;
          [by repeat (case_decide; simplify_eq)|]).
  rewrite lookup_empty.
  by repeat (case_decide; simplify_eq).
Qed.

(** C7: the lookup of a name that is not registered answers [undefined],
    it does not throw; each of the four registered names answers with its
    Source. *)
Theorem lookup_of_unregistered_name :
  (∀ key : string,
     key ∉ ["live"; "staging"; "community"; "inrb-drc"] →
     Map_get module_exports key = None) ∧
  Map_get module_exports "live" = Some LiveSource ∧
  Map_get module_exports "staging" = Some StagingSource ∧
  Map_get module_exports "community" = Some CommunitySource ∧
  Map_get module_exports "inrb-drc" = Some InrbDrcSource.
Proof.
  split; [|done].
  intros key Hkey. rewrite module_exports_lookup.
  repeat (case_decide; [subst; exfalso; apply Hkey; set_solver|]).
  done.
Qed.

Lemma lookup_of_unregistered_name_witness :
  Map_get module_exports "inrb" = None.
Proof.
  apply (proj1 lookup_of_unregistered_name).
  apply (bool_decide_unpack _). vm_compute. exact I.
Defined.

(** C10: every entry of the registry is filed under the name of its own
    Source; the registry holds the four entries of the source text and
    nothing else, and no name occurs twice. *)
Theorem registry_keys_are_names :
  (∀ (key : string) (c : SourceClass),
     Map_get module_exports key = Some c → name c = Ok key) ∧
  map_to_list module_exports ≡ₚ entries ∧
  entries.*1 = ["live"; "staging"; "community"; "inrb-drc"] ∧
  NoDup entries.*1 ∧
  size module_exports = 4.
Proof.
  assert (NoDup entries.*1) as Hnd.
  { apply (bool_decide_unpack _). vm_compute. exact I. }
  assert (module_exports = list_to_map entries) as Hmap.
  { apply map_eq. intros key.
    change (module_exports !! key) with (Map_get module_exports key).
    rewrite module_exports_lookup. unfold entries. simpl.
    repeat (rewrite lookup_insert; case_decide; simplify_eq;
            [by repeat (case_decide; simplify_eq)|]).
    rewrite lookup_empty. by repeat (case_decide; simplify_eq). }
  split_and!; [| |done|done|].
  - intros key c. rewrite module_exports_lookup.
    repeat (case_decide; [by intros [= <-]; subst|]). done.
  - rewrite Hmap. by apply map_to_list_to_map.
  - rewrite Hmap. by rewrite map_size_list_to_map.
Qed.

Lemma registry_keys_are_names_witness :
  Map_get module_exports "inrb-drc" = Some InrbDrcSource ∧
  name InrbDrcSource = Ok "inrb-drc".
Proof.
  split; [reflexivity|].
  apply (proj1 registry_keys_are_names "inrb-drc" InrbDrcSource).
  reflexivity.
Defined.

(** ** Base names and URLs *)

(** C1: for a community dataset with path parts [owner, repo, ...rest] the
    base name is the underscore-join of [repo, ...rest] followed by
    "_<type>.json", without the owner, and [urlFor] resolves this base name
    against "https://raw.githubusercontent.com/<owner>/<repo>/master/auspice/",
    where the owner is the first segment of the path. *)
Theorem community_basename_and_url
    (S3sign : string → option string → string → result string)
    (URL : string → string → result string)
    (h : store) (a : ref) (owner repo : string) (rest : list string)
    (type : string) :
  h !! a = Some (owner :: repo :: rest) →
  ∃ d : DatasetObj,
    dataset CommunitySource a = Ok d ∧
    fst (baseNameFor d type h)
      = Ok (join "_" (repo :: rest) +:+ "_" +:+ type +:+ ".json") ∧
    fst (urlFor S3sign URL d type h)
      = URL (join "_" (repo :: rest) +:+ "_" +:+ type +:+ ".json")
            ("https://raw.githubusercontent.com" +:+
             "/" +:+ owner +:+ "/" +:+ repo +:+ "/master/auspice/").
Proof.
  intros Hp. eexists. split; [reflexivity|].
  set (d := new_Dataset CommunityDataset CommunitySource a).
  pose proof (baseNameFor_Some d type h _ Hp) as Hb. simpl in Hb.
  split; [by rewrite Hb|].
  unfold urlFor, Array_get, bind. simpl.
  rewrite (deref_Some _ _ _ Hp). simpl.
  rewrite (deref_Some _ _ _ Hp). simpl.
  fold d. rewrite Hb. simpl. unfold lift. simpl. done.
Qed.

Lemma community_basename_and_url_witness :
  ([["owner"; "repo"; "a"; "b"]] : store) !! 0
    = Some ["owner"; "repo"; "a"; "b"] ∧
  ∃ d : DatasetObj,
    dataset CommunitySource 0 = Ok d ∧
    fst (baseNameFor d "tree" [["owner"; "repo"; "a"; "b"]])
      = Ok "repo_a_b_tree.json" ∧
    fst (urlFor (λ _ _ _, Ok "") (λ input base, Ok (base +:+ input)) d "tree"
           [["owner"; "repo"; "a"; "b"]])
      = Ok "https://raw.githubusercontent.com/owner/repo/master/auspice/repo_a_b_tree.json".
Proof.
  split; [reflexivity|].
  apply (community_basename_and_url
           (λ _ _ _, Ok "") (λ input base, Ok (base +:+ input))
           [["owner"; "repo"; "a"; "b"]] 0 "owner" "repo" ["a"; "b"] "tree").
  reflexivity.
Defined.

(** C4: the recovery rule of the listing inverts the base name of a default
    Dataset: for non-empty path parts without underscores, cutting
    "_tree.json" off [baseNameFor("tree")], splitting at underscores and
    joining with "/" gives the path parts joined with "/". *)
Theorem listing_recovers_path (h : store) (d : DatasetObj)
    (parts : list string) :
  class_of d = Dataset →
  h !! pathParts d = Some parts →
  parts ≠ [] →
  Forall (λ p, contains "_" p = false) parts →
  ∃ b : string,
    fst (baseNameFor d "tree" h) = Ok b ∧
    path_of_file b = join "/" parts.
Proof.
  intros Hc Hp Hne Hall. eexists.
  rewrite (baseNameFor_Some _ _ _ _ Hp), Hc. simpl. rewrite drop_0.
  split; [reflexivity|].
  unfold path_of_file.
  change ("_" +:+ "tree" +:+ ".json") with "_tree.json".
  rewrite replace_at_end_app.
  by rewrite (split_join "_" parts Hne Hall).
Qed.

Lemma listing_recovers_path_witness :
  ∃ b : string,
    fst (baseNameFor (new_Dataset Dataset LiveSource 0) "tree"
           [["flu"; "seasonal"; "h3n2"]]) = Ok b ∧
    path_of_file b = "flu/seasonal/h3n2".
Proof.
  apply (listing_recovers_path [["flu"; "seasonal"; "h3n2"]]
           (new_Dataset Dataset LiveSource 0) ["flu"; "seasonal"; "h3n2"]).
  - reflexivity.
  - reflexivity.
  - discriminate.
  - repeat constructor.
Defined.

(** Without the restriction on the segments the rule is not an inverse: an
    underscore inside a segment comes back as a separator. *)
Lemma listing_splits_underscores :
  fst (baseNameFor (new_Dataset Dataset LiveSource 0) "tree" [["a_b"]])
    = Ok "a_b_tree.json" ∧
  path_of_file "a_b_tree.json" = "a/b".
Proof. done. Qed.

(** C5: [dataset] builds a Dataset from any array, the empty one included:
    no Source class checks the path parts, and the Dataset of an empty
    array has the base name "_tree.json". *)
Theorem dataset_of_empty_pathParts :
  (∀ (c : SourceClass) (a : ref),
     ∃ C, dataset c a = Ok (new_Dataset C c a)) ∧
  (∀ c : SourceClass,
     ∃ d, dataset c 0 = Ok d ∧
          ([[]] : store) !! pathParts d = Some [] ∧
          fst (baseNameFor d "tree" [[]]) = Ok "_tree.json").
Proof.
  split.
  - intros c a. destruct c; eexists; reflexivity.
  - intros c. destruct c; eexists; (split; [reflexivity|done]).
Qed.

(** C9: [baseNameFor] is a function of the Dataset's state.  However often
    it has been called, the array that [pathParts] names holds what it held
    before, and the next call gives the result of the first one. *)
Theorem baseNameFor_is_pure (d : DatasetObj) (type : string) (h : store)
    (k : nat) :
  after_calls k d type h !! pathParts d = h !! pathParts d ∧
  fst (baseNameFor d type (after_calls k d type h))
    = fst (baseNameFor d type h).
Proof.
  revert h. induction k as [|k IH]; intros h; simpl; [done|].
  destruct (baseNameFor_step d type h) as [Hparts Hres].
  destruct (IH (snd (baseNameFor d type h))) as [IHparts IHres].
  split; congruence.
Qed.

(** ** The listing of a private bucket *)

(** C3: for a private-store Source with a name, [availableDatasets] keeps
    exactly the listed keys that end in "_tree.json", in their order, cuts
    the suffix off, turns the underscores into "/" and answers with
    [{request: "<name>/<path>"}] for each; the keys "a_b_tree.json",
    "a_b_meta.json", "c_tree.json" give "<name>/a/b" and "<name>/c" and
    nothing for the meta key. *)
Theorem private_listing
    (gAD : option (gmap string (list Listing)))
    (S3list : option string → result (list S3Object))
    (this : SourceClass) (n : string) (Contents : list S3Object) :
  provider (availableDatasets_own gAD S3list) this = Some PrivateS3Source →
  name this = Ok n →
  S3list (bucket this) = Ok Contents →
  ∃ l : list Listing,
    availableDatasets gAD S3list this = Ok l ∧
    l = map (λ file, {| request := n +:+ "/" +:+ path_of_file file |})
            (List.filter (λ file, endsWith file "_tree.json")
                         (map Key Contents)) ∧
    (∀ r : Listing,
       r ∈ l ↔
       ∃ p : string,
         {| Key := p +:+ "_tree.json" |} ∈ Contents ∧
         r = {| request := n +:+ "/" +:+ join "/" (split "_" p) |}) ∧
    (map Key Contents = ["a_b_tree.json"; "a_b_meta.json"; "c_tree.json"] →
     l = [ {| request := n +:+ "/a/b" |}; {| request := n +:+ "/c" |} ]).
Proof.
  intros Hprov Hname Hlist. eexists. split; [|split; [reflexivity|split]].
  - unfold availableDatasets, invoke, member. rewrite Hprov. simpl.
    rewrite Hlist. simpl. rewrite Hname. simpl.
    by rewrite (rmapM_Ok
      (λ path, {| request := n +:+ "/" +:+ path |})), map_map.
  - intros r. rewrite list_elem_of_In, in_map_iff. split.
    + intros (file & <- & [Hin Hends]%filter_In).
      apply endsWith_spec in Hends as [p ->]. exists p.
      apply in_map_iff in Hin as (o & Ho & Hin). split.
      * by rewrite <- Ho, S3Object_eta, list_elem_of_In.
      * unfold path_of_file. by rewrite replace_at_end_app.
    + intros (p & Hin%list_elem_of_In & ->).
      exists (p +:+ "_tree.json"). split.
      * unfold path_of_file. by rewrite replace_at_end_app.
      * apply filter_In. split; [|apply endsWith_app].
        apply in_map_iff. by exists {| Key := p +:+ "_tree.json" |}.
  - by intros ->.
Qed.

Lemma private_listing_witness :
  availableDatasets None
    (λ _, Ok [ {| Key := "a_b_tree.json" |}; {| Key := "a_b_meta.json" |};
               {| Key := "c_tree.json" |} ])
    InrbDrcSource
  = Ok [ {| request := "inrb-drc/a/b" |}; {| request := "inrb-drc/c" |} ].
Proof.
  destruct (private_listing None
    (λ _, Ok [ {| Key := "a_b_tree.json" |}; {| Key := "a_b_meta.json" |};
               {| Key := "c_tree.json" |} ])
    InrbDrcSource "inrb-drc"
    [ {| Key := "a_b_tree.json" |}; {| Key := "a_b_meta.json" |};
      {| Key := "c_tree.json" |} ]
    eq_refl eq_refl eq_refl) as (l & Hl & _ & _ & Hex).
  rewrite Hl. f_equal. apply Hex. reflexivity.
Defined.

(** On the abstract PrivateS3Source the listing is rejected as soon as one
    key ends in "_tree.json", since building its request reads [name]. *)
Lemma private_listing_without_name :
  availableDatasets None (λ _, Ok [ {| Key := "c_tree.json" |} ])
    PrivateS3Source
  = Throw (ThrowString "name() must be implemented by subclasses").
Proof. done. Qed.

(** * Further properties of the module *)

(** ** What [urlFor] computes *)

(** The result and the store of [urlFor] on a well-formed store, for the
    three Dataset classes at once. *)
Lemma urlFor_Some
    (S3sign : string → option string → string → result string)
    (URL : string → string → result string)
    d type (h : store) parts :
  h !! pathParts d = Some parts →
  urlFor S3sign URL d type h =
    (let b := join "_" (drop (skipped (class_of d)) parts)
                +:+ "_" +:+ type +:+ ".json" in
     match class_of d with
     | Dataset => rbind (baseUrl (source d)) (URL b)
     | CommunityDataset => URL b (repoBaseUrl (parts !! 0) (parts !! 1))
     | PrivateS3Dataset => S3sign "getObject" (bucket (source d)) b
     end,
     h ++ [drop (skipped (class_of d)) parts]).
Proof.
  intros Hp. pose proof (baseNameFor_Some d type h parts Hp) as Hb.
  unfold urlFor. destruct (class_of d) eqn:Hc; simpl in *.
  - unfold bind at 1. rewrite Hb. unfold bind, lift.
    by destruct (baseUrl (source d)).
  - unfold Array_get. unfold bind at 1. unfold bind at 1.
    rewrite (deref_Some _ _ _ Hp). unfold ret.
    unfold bind at 1. unfold bind at 1.
    rewrite (deref_Some _ _ _ Hp).
    unfold bind at 1. by rewrite Hb.
  - unfold bind at 1. by rewrite Hb.
Qed.

Lemma urlFor_None
    (S3sign : string → option string → string → result string)
    (URL : string → string → result string)
    d type (h : store) :
  h !! pathParts d = None →
  urlFor S3sign URL d type h = (Throw (TypeError "not an array"), h).
Proof.
  intros Hp. pose proof (baseNameFor_None d type h Hp) as Hb.
  unfold urlFor. destruct (class_of d).
  - unfold bind at 1. by rewrite Hb.
  - unfold Array_get. unfold bind at 1. unfold bind at 1.
    by rewrite (deref_None _ _ Hp).
  - unfold bind at 1. by rewrite Hb.
Qed.

(** X1: the URL of a dataset of the two static hosts is the base name,
    built from all path parts, resolved against the host's base URL. *)
Theorem static_host_url
    (S3sign : string → option string → string → result string)
    (URL : string → string → result string)
    (h : store) (a : ref) (parts : list string) (type : string) :
  h !! a = Some parts →
  (∃ d, dataset LiveSource a = Ok d ∧
        fst (urlFor S3sign URL d type h)
          = URL (join "_" parts +:+ "_" +:+ type +:+ ".json")
                "http://data.nextstrain.org/") ∧
  (∃ d, dataset StagingSource a = Ok d ∧
        fst (urlFor S3sign URL d type h)
          = URL (join "_" parts +:+ "_" +:+ type +:+ ".json")
                "http://staging.nextstrain.org/").
Proof.
  intros Hp.
  split; (eexists; split; [reflexivity|]);
    rewrite (urlFor_Some _ _ _ _ _ parts) by done; simpl;
    by rewrite drop_0.
Qed.

Lemma static_host_url_witness :
  ∃ d, dataset LiveSource 0 = Ok d ∧
       fst (urlFor (λ _ _ _, Ok "") (λ input base, Ok (base +:+ input))
              d "meta" [["flu"; "seasonal"; "h3n2"]])
         = Ok "http://data.nextstrain.org/flu_seasonal_h3n2_meta.json".
Proof.
  apply (static_host_url (λ _ _ _, Ok "") (λ input base, Ok (base +:+ input))
           [["flu"; "seasonal"; "h3n2"]] 0 ["flu"; "seasonal"; "h3n2"] "meta").
  reflexivity.
Defined.

(** X2: the URL of a dataset of the private tenant is what the S3 client
    signs for reading the object whose key is the base name, in the
    tenant's bucket; the URL class is not involved. *)
Theorem private_url_signs_basename
    (S3sign : string → option string → string → result string)
    (URL : string → string → result string)
    (h : store) (a : ref) (parts : list string) (type : string) :
  h !! a = Some parts →
  ∃ d, dataset InrbDrcSource a = Ok d ∧
       class_of d = PrivateS3Dataset ∧
       fst (urlFor S3sign URL d type h)
         = S3sign "getObject" (Some "nextstrain-inrb")
             (join "_" parts +:+ "_" +:+ type +:+ ".json").
Proof.
  intros Hp. eexists. split; [reflexivity|]. split; [reflexivity|].
  rewrite (urlFor_Some _ _ _ _ _ parts) by done. simpl. by rewrite drop_0.
Qed.

Lemma private_url_signs_basename_witness :
  ∃ d, dataset InrbDrcSource 0 = Ok d ∧
       class_of d = PrivateS3Dataset ∧
       fst (urlFor (λ op b k, Ok (op +:+ ":" +:+ ToString b +:+ "/" +:+ k))
              (λ _ _, Throw (TypeError "Invalid URL"))
              d "tree" [["ebola"; "drc"]])
         = Ok "getObject:nextstrain-inrb/ebola_drc_tree.json".
Proof.
  apply (private_url_signs_basename
           (λ op b k, Ok (op +:+ ":" +:+ ToString b +:+ "/" +:+ k))
           (λ _ _, Throw (TypeError "Invalid URL"))
           [["ebola"; "drc"]] 0 ["ebola"; "drc"] "tree").
  reflexivity.
Defined.

(** X3: a community dataset with fewer than two path parts does not fail:
    the repository part of the base URL is the text "undefined" (and so is
    the owner when there is no part at all), and the base name is
    "_<type>.json". *)
Theorem community_url_short_path
    (S3sign : string → option string → string → result string)
    (URL : string → string → result string)
    (h : store) (a : ref) (parts : list string) (type : string) :
  h !! a = Some parts →
  length parts < 2 →
  ∃ d, dataset CommunitySource a = Ok d ∧
       fst (baseNameFor d type h) = Ok ("_" +:+ type +:+ ".json") ∧
       fst (urlFor S3sign URL d type h)
         = URL ("_" +:+ type +:+ ".json")
               ("https://raw.githubusercontent.com/" +:+
                default "undefined" (head parts) +:+
                "/undefined/master/auspice/").
Proof.
  intros Hp Hlen. eexists. split; [reflexivity|].
  rewrite (baseNameFor_Some _ _ _ parts) by done.
  rewrite (urlFor_Some _ _ _ _ _ parts) by done. simpl.
  destruct parts as [|owner [|repo rest]]; simpl in *; [done|done|lia].
Qed.

Lemma community_url_short_path_witness :
  ∃ d, dataset CommunitySource 0 = Ok d ∧
       fst (baseNameFor d "tree" [["owner"]]) = Ok "_tree.json" ∧
       fst (urlFor (λ _ _ _, Ok "") (λ input base, Ok (base +:+ input))
              d "tree" [["owner"]])
         = Ok "https://raw.githubusercontent.com/owner/undefined/master/auspice/_tree.json".
Proof.
  apply (community_url_short_path
           (λ _ _ _, Ok "") (λ input base, Ok (base +:+ input))
           [["owner"]] 0 ["owner"] "tree").
  - reflexivity.
  - simpl. lia.
Defined.

(** ** The store under the Dataset methods *)

(** X4: [baseNameFor] and [urlFor] never write to an array that exists:
    the store after a call starts with the store before it, and holds at
    most one array more, the copy made by [baseParts]. *)
Theorem methods_only_extend_store
    (S3sign : string → option string → string → result string)
    (URL : string → string → result string)
    (d : DatasetObj) (type : string) (h : store) :
  h `prefix_of` snd (baseNameFor d type h) ∧
  h `prefix_of` snd (urlFor S3sign URL d type h) ∧
  length (snd (baseNameFor d type h)) ≤ S (length h) ∧
  length (snd (urlFor S3sign URL d type h)) ≤ S (length h).
Proof.
  destruct (h !! pathParts d) as [parts|] eqn:Hp.
  - rewrite (baseNameFor_Some _ _ _ parts), (urlFor_Some _ _ _ _ _ parts)
      by done.
    simpl. rewrite List.length_app. simpl.
    split_and!; try apply prefix_app_r; try done; lia.
  - rewrite baseNameFor_None, urlFor_None by done. simpl.
    split_and!; try done; lia.
Qed.

(** X5: [baseParts] answers with a new array: its reference is not the one
    of [pathParts] and named nothing before the call; the new array holds
    the path parts used for the name, and [pathParts] holds what it held. *)
Theorem baseParts_is_a_copy (d : DatasetObj) (h : store)
    (parts : list string) :
  h !! pathParts d = Some parts →
  ∃ (r : ref) (h' : store),
    baseParts d h = (Ok r, h') ∧
    r ≠ pathParts d ∧
    h !! r = None ∧
    h' !! r = Some (drop (skipped (class_of d)) parts) ∧
    h' !! pathParts d = Some parts.
Proof.
  intros Hp.
  exists (length h), (h ++ [drop (skipped (class_of d)) parts]).
  pose proof (lookup_lt_Some _ _ _ Hp) as Hlt.
  split_and!.
  - unfold baseParts, Array_slice, bind, alloc.
    destruct (class_of d); by rewrite (deref_Some _ _ _ Hp).
  - unfold ref in *. lia.
  - by apply lookup_ge_None.
  - apply lookup_alloc_new.
  - by rewrite lookup_alloc.
Qed.

Lemma baseParts_is_a_copy_witness :
  ∃ (r : ref) (h' : store),
    baseParts (new_Dataset CommunityDataset CommunitySource 0)
      [["owner"; "repo"; "a"]] = (Ok r, h') ∧
    r ≠ 0 ∧
    ([["owner"; "repo"; "a"]] : store) !! r = None ∧
    h' !! r = Some ["repo"; "a"] ∧
    h' !! 0 = Some ["owner"; "repo"; "a"].
Proof.
  apply (baseParts_is_a_copy (new_Dataset CommunityDataset CommunitySource 0)
           [["owner"; "repo"; "a"]] ["owner"; "repo"; "a"]).
  reflexivity.
Defined.

(** ** Base names *)

Lemma app_inj_r s t u : s +:+ u = t +:+ u → s = t.
Proof.
  revert t. induction s as [|c s IH]; intros [|c' t] E.
  - done.
  - symmetry in E. by apply cons_app_neq in E.
  - by apply cons_app_neq in E.
  - rewrite !app_cons in E. injection E as -> E. f_equal. by apply IH.
Qed.

(** X6: datasets of the default or private class with different clean path
    parts never share a file: if the path parts are non-empty and free of
    underscores and the base names for a type agree, the path parts are
    equal. *)
Theorem basename_is_injective (d1 d2 : DatasetObj) (type : string)
    (h1 h2 : store) (parts1 parts2 : list string) :
  class_of d1 ≠ CommunityDataset →
  class_of d2 ≠ CommunityDataset →
  h1 !! pathParts d1 = Some parts1 →
  h2 !! pathParts d2 = Some parts2 →
  parts1 ≠ [] → parts2 ≠ [] →
  Forall (λ p, contains "_" p = false) parts1 →
  Forall (λ p, contains "_" p = false) parts2 →
  fst (baseNameFor d1 type h1) = fst (baseNameFor d2 type h2) →
  parts1 = parts2.
Proof.
  intros Hc1 Hc2 Hp1 Hp2 Hne1 Hne2 Hall1 Hall2.
  rewrite (baseNameFor_Some _ _ _ parts1), (baseNameFor_Some _ _ _ parts2)
    by done.
  assert (skipped (class_of d1) = 0) as -> by by destruct (class_of d1).
  assert (skipped (class_of d2) = 0) as -> by by destruct (class_of d2).
  rewrite !drop_0. simpl. intros [= E%app_inj_r].
  rewrite <- (split_join "_" parts1 Hne1 Hall1),
          <- (split_join "_" parts2 Hne2 Hall2).
  by rewrite E.
Qed.

Lemma basename_is_injective_witness :
  fst (baseNameFor (new_Dataset Dataset LiveSource 0) "tree" [["zika"]])
    = fst (baseNameFor (new_Dataset PrivateS3Dataset InrbDrcSource 1) "tree"
             [[]; ["zika"]]) ∧
  ["zika"] = ["zika"].
Proof.
  split; [reflexivity|].
  apply (basename_is_injective
           (new_Dataset Dataset LiveSource 0)
           (new_Dataset PrivateS3Dataset InrbDrcSource 1)
           "tree" [["zika"]] [[]; ["zika"]] ["zika"] ["zika"]);
    try discriminate; try reflexivity; repeat constructor.
Defined.

(** With an underscore inside a segment two different paths do share a
    file, so the restriction of X6 cannot be dropped. *)
Lemma basename_collision :
  fst (baseNameFor (new_Dataset Dataset LiveSource 0) "tree" [["a_b"]])
    = fst (baseNameFor (new_Dataset Dataset LiveSource 0) "tree"
             [["a"; "b"]]).
Proof. done. Qed.

(** X7: the owner plays no part in the name of a community dataset: its
    base name is that of a default dataset for the path parts without the
    first one, so two community datasets that differ in the owner only
    have the same base name. *)
Theorem community_basename_drops_first_part
    (s1 s2 : SourceClass) (a1 a2 : ref) (h1 h2 : store)
    (first : string) (parts : list string) (type : string) :
  h1 !! a1 = Some (first :: parts) →
  h2 !! a2 = Some parts →
  fst (baseNameFor (new_Dataset CommunityDataset s1 a1) type h1)
    = fst (baseNameFor (new_Dataset Dataset s2 a2) type h2).
Proof.
  intros Hp1 Hp2.
  rewrite (baseNameFor_Some _ _ _ (first :: parts)),
          (baseNameFor_Some _ _ _ parts) by done.
  simpl. by rewrite !drop_0.
Qed.

Lemma community_basename_drops_first_part_witness :
  fst (baseNameFor (new_Dataset CommunityDataset CommunitySource 0) "tree"
         [["blab"; "zika"; "usvi"]])
    = fst (baseNameFor (new_Dataset Dataset LiveSource 0) "tree"
             [["zika"; "usvi"]]).
Proof.
  apply (community_basename_drops_first_part CommunitySource LiveSource 0 0
           [["blab"; "zika"; "usvi"]] [["zika"; "usvi"]]
           "blab" ["zika"; "usvi"] "tree"); reflexivity.
Defined.

(** ** Listings *)

(** X8: the listing of a static host is the entry of the process-wide
    table under the host's own name, and empty when the table has no such
    entry; entries under other names do not change it, and neither does the
    S3 client.  The same holds for the narratives. *)
Theorem static_host_listing
    (t : gmap string (list Listing))
    (S3list S3list' : option string → result (list S3Object))
    (c : SourceClass) (n k : string) (v : list Listing) :
  c = LiveSource ∨ c = StagingSource →
  name c = Ok n →
  k ≠ n →
  availableDatasets (Some t) S3list c = Ok (default [] (t !! n)) ∧
  availableNarratives (Some t) c = Ok (default [] (t !! n)) ∧
  (t !! n = None → availableDatasets (Some t) S3list c = Ok []) ∧
  availableDatasets (Some (<[k := v]> t)) S3list' c
    = availableDatasets (Some t) S3list c ∧
  availableNarratives (Some (<[k := v]> t)) c
    = availableNarratives (Some t) c.
Proof.
  intros Hc Hn Hk.
  assert (availableDatasets (Some t) S3list c = Ok (default [] (t !! n)))
    as Hd by (by destruct Hc as [-> | ->]; injection Hn as <-).
  assert (availableNarratives (Some t) c = Ok (default [] (t !! n)))
    as Hr by (by destruct Hc as [-> | ->]; injection Hn as <-).
  split_and!; [done|done| | |].
  - intros Hnone. by rewrite Hd, Hnone.
  - rewrite Hd. destruct Hc as [-> | ->]; injection Hn as <-;
      unfold availableDatasets, invoke; simpl; unfold global_lookup;
      by rewrite lookup_insert_ne.
  - rewrite Hr. destruct Hc as [-> | ->]; injection Hn as <-;
      unfold availableNarratives, invoke; simpl; unfold global_lookup;
      by rewrite lookup_insert_ne.
Qed.

Lemma static_host_listing_witness :
  availableDatasets
    (Some {[ "live" := [ {| request := "zika" |} ] ]}) (λ _, Ok []) LiveSource
    = Ok [ {| request := "zika" |} ] ∧
  availableDatasets
    (Some (<[ "staging" := [ {| request := "flu" |} ] ]>
             {[ "live" := [ {| request := "zika" |} ] ]}))
    (λ _, Throw (TypeError "")) LiveSource
    = availableDatasets
        (Some {[ "live" := [ {| request := "zika" |} ] ]}) (λ _, Ok [])
        LiveSource.
Proof.
  destruct (static_host_listing
    {[ "live" := [ {| request := "zika" |} ] ]}
    (λ _, Ok []) (λ _, Throw (TypeError "")) LiveSource "live" "staging"
    [ {| request := "flu" |} ]) as (H1 & _ & _ & H2 & _).
  - by left.
  - reflexivity.
  - discriminate.
  - split; [exact H1|exact H2].
Defined.

(** The static hosts fail with a TypeError when the process-wide table has
    not been set up. *)
Lemma static_host_listing_unset S3list :
  availableDatasets None S3list LiveSource
    = Throw (TypeError "Cannot read property of undefined") ∧
  availableDatasets None S3list StagingSource
    = Throw (TypeError "Cannot read property of undefined").
Proof. done. Qed.

(** The listing of a private-store class, once the bucket has been read. *)
Lemma private_listing_eval
    (gAD : option (gmap string (list Listing)))
    (S3list : option string → result (list S3Object))
    (this : SourceClass) :
  provider (availableDatasets_own gAD S3list) this = Some PrivateS3Source →
  availableDatasets gAD S3list this =
    rbind (S3list (bucket this)) (λ Contents,
      rmapM (λ path, rbind (name this) (λ n,
               Ok {| request := join "/" [n; path] |}))
        (map path_of_file
           (List.filter (λ file, endsWith file "_tree.json")
              (map Key Contents)))).
Proof.
  intros Hprov. unfold availableDatasets, invoke, member. by rewrite Hprov.
Qed.






(** X10: a failure of the bucket listing is the failure of
    [availableDatasets] of a private-store class: it is passed on as it is,
    not turned into an empty listing. *)
Theorem private_listing_failure
    (gAD : option (gmap string (list Listing)))
    (S3list : option string → result (list S3Object))
    (this : SourceClass) (e : thrown) :
  provider (availableDatasets_own gAD S3list) this = Some PrivateS3Source →
  S3list (bucket this) = Throw e →
  availableDatasets gAD S3list this = Throw e.
Proof.
  intros Hprov Hlist. rewrite private_listing_eval by done.
  by rewrite Hlist.
Qed.

Lemma private_listing_failure_witness :
  availableDatasets None (λ _, Throw (TypeError "AccessDenied")) InrbDrcSource
    = Throw (TypeError "AccessDenied").
Proof.
  apply (private_listing_failure None
           (λ _, Throw (TypeError "AccessDenied")) InrbDrcSource
           (TypeError "AccessDenied")); reflexivity.
Defined.

(** ** Paths and keys *)

Lemma contains_app c s t :
  contains c (s +:+ t) = contains c s || contains c t.
Proof.
  induction s as [|a s IH]; [done|].
  rewrite app_cons. simpl. by rewrite IH, orb_assoc.
Qed.

Lemma join_cons_char sep a w ws :
  join sep (String a w :: ws) = String a (join sep (w :: ws)).
Proof. by destruct ws. Qed.

Lemma join_cons_empty sep l :
  l ≠ [] → join sep ("" :: l) = sep +:+ join sep l.
Proof. by destruct l. Qed.

(** Joining with the separator undoes splitting. *)
Lemma join_split sep s : join (String sep "") (split sep s) = s.
Proof.
  induction s as [|a s IH]; simpl; [done|].
  destruct (Ascii.eqb_spec a sep) as [->|_].
  - rewrite join_cons_empty by apply split_not_nil. by rewrite IH.
  - pose proof (split_not_nil sep s).
    destruct (split sep s) as [|w ws]; [done|].
    by rewrite join_cons_char, IH.
Qed.

(** After splitting at [c] and joining with another character no [c] is
    left. *)
Lemma contains_join_split c d s :
  Ascii.eqb d c = false →
  contains c (join (String d "") (split c s)) = false.
Proof.
  intros Hd. induction s as [|a s IH]; simpl; [done|].
  destruct (Ascii.eqb a c) eqn:Ha.
  - rewrite join_cons_empty by apply split_not_nil.
    change (String d "" +:+ ?t) with (String d t). simpl. by rewrite Hd.
  - pose proof (split_not_nil c s).
    destruct (split c s) as [|w ws]; [done|].
    rewrite join_cons_char. simpl. by rewrite Ha.
Qed.

(** The pieces of a string hold no character the string does not hold. *)
Lemma Forall_split c sep s :
  contains c s = false →
  Forall (λ p, contains c p = false) (split sep s).
Proof.
  induction s as [|a s IH]; simpl; [by repeat constructor|].
  intros [Ha Hs]%orb_false_iff. specialize (IH Hs).
  destruct (Ascii.eqb a sep).
  - by constructor.
  - destruct (split sep s) as [|w ws]; [by repeat constructor; simpl; rewrite Ha|].
    inversion_clear IH as [|? ? Hw Hws].
    constructor; [|done]. simpl. by rewrite Ha, Hw.
Qed.

(** X11: no request listed for the private tenant holds an underscore:
    each is "inrb-drc/" followed by a path in which every underscore of the
    key has become a "/". *)
Theorem listed_requests_have_no_underscore
    (gAD : option (gmap string (list Listing)))
    (S3list : option string → result (list S3Object))
    (Contents : list S3Object) :
  S3list (Some "nextstrain-inrb") = Ok Contents →
  ∃ l : list Listing,
    availableDatasets gAD S3list InrbDrcSource = Ok l ∧
    length l ≤ length Contents ∧
    ∀ r : Listing, r ∈ l →
      contains "_" (request r) = false ∧
      ∃ path : string, request r = "inrb-drc/" +:+ path.
Proof.
  intros Hlist. eexists. split; [|split].
  - rewrite private_listing_eval by done.
    change (bucket InrbDrcSource) with (Some "nextstrain-inrb").
    rewrite Hlist. simpl.
    by rewrite (rmapM_Ok (λ path, {| request := "inrb-drc/" +:+ path |})).
  - rewrite !length_map. etrans; [apply filter_length_le|].
    by rewrite length_map.
  - intros r (path & -> & Hin)%list_elem_of_fmap. simpl. split; [|by eexists].
    apply list_elem_of_fmap in Hin as (file & -> & _).
    change ("inrb-drc/" +:+ ?p) with ("inrb-drc" +:+ "/" +:+ p).
    rewrite !contains_app. simpl.
    unfold path_of_file. by rewrite contains_join_split.
Qed.

Lemma listed_requests_have_no_underscore_witness :
  ∃ l : list Listing,
    availableDatasets None
      (λ _, Ok [ {| Key := "ebola_north_kivu_tree.json" |} ])
      InrbDrcSource = Ok l ∧
    length l ≤ 1 ∧
    ∀ r : Listing, r ∈ l →
      contains "_" (request r) = false ∧
      ∃ path : string, request r = "inrb-drc/" +:+ path.
Proof.
  apply (listed_requests_have_no_underscore None
           (λ _, Ok [ {| Key := "ebola_north_kivu_tree.json" |} ])
           [ {| Key := "ebola_north_kivu_tree.json" |} ]).
  reflexivity.
Defined.

(** X14: a listed path leads back to its key.  For a key "<p>_tree.json"
    whose [p] holds no "/", the listed path, split at "/" into path parts,
    gives a default or private dataset whose base name for "tree" is the
    key again. *)
Theorem listed_path_names_its_key (h : store) (d : DatasetObj)
    (p : string) :
  class_of d ≠ CommunityDataset →
  contains "/" p = false →
  h !! pathParts d = Some (split "/" (path_of_file (p +:+ "_tree.json"))) →
  fst (baseNameFor d "tree" h) = Ok (p +:+ "_tree.json").
Proof.
  intros Hc Hp Hparts.
  rewrite (baseNameFor_Some _ _ _ _ Hparts).
  assert (skipped (class_of d) = 0) as -> by by destruct (class_of d).
  rewrite drop_0. unfold path_of_file. rewrite replace_at_end_app.
  rewrite (split_join "/" (split "_" p));
    [|apply split_not_nil|by apply Forall_split].
  simpl. by rewrite (join_split "_" p).
Qed.

Lemma listed_path_names_its_key_witness :
  path_of_file "ebola_north_kivu_tree.json" = "ebola/north/kivu" ∧
  fst (baseNameFor (new_Dataset PrivateS3Dataset InrbDrcSource 0) "tree"
         [["ebola"; "north"; "kivu"]])
    = Ok "ebola_north_kivu_tree.json".
Proof.
  split; [reflexivity|].
  apply (listed_path_names_its_key [["ebola"; "north"; "kivu"]]
           (new_Dataset PrivateS3Dataset InrbDrcSource 0) "ebola_north_kivu").
  - discriminate.
  - reflexivity.
  - reflexivity.
Defined.

(** X15: a dataset of the private tenant whose tree file is in the bucket
    is listed under its path: for non-empty path parts without underscores,
    if the bucket holds the key that [baseNameFor("tree")] gives, the
    listing holds the request "inrb-drc/" followed by the path parts joined
    with "/". *)
Theorem stored_dataset_is_listed
    (gAD : option (gmap string (list Listing)))
    (S3list : option string → result (list S3Object))
    (Contents : list S3Object)
    (h : store) (a : ref) (parts : list string) (key : string) :
  h !! a = Some parts →
  parts ≠ [] →
  Forall (λ p, contains "_" p = false) parts →
  fst (baseNameFor (new_Dataset PrivateS3Dataset InrbDrcSource a) "tree" h)
    = Ok key →
  {| Key := key |} ∈ Contents →
  S3list (Some "nextstrain-inrb") = Ok Contents →
  dataset InrbDrcSource a
    = Ok (new_Dataset PrivateS3Dataset InrbDrcSource a) ∧
  ∃ l : list Listing,
    availableDatasets gAD S3list InrbDrcSource = Ok l ∧
    {| request := "inrb-drc/" +:+ join "/" parts |} ∈ l.
Proof.
  intros Hp Hne Hall Hkey Hin Hlist. split; [done|].
  rewrite (baseNameFor_Some _ _ _ parts) in Hkey by done.
  simpl in Hkey. rewrite drop_0 in Hkey. injection Hkey as <-.
  eexists. split.
  - rewrite private_listing_eval by done.
    change (bucket InrbDrcSource) with (Some "nextstrain-inrb").
    rewrite Hlist. simpl.
    by rewrite (rmapM_Ok (λ path, {| request := "inrb-drc/" +:+ path |})).
  - apply list_elem_of_fmap.
    exists (join "/" parts). split; [done|].
    apply list_elem_of_fmap.
    exists (join "_" parts +:+ "_tree.json"). split.
    + unfold path_of_file. rewrite replace_at_end_app.
      by rewrite (split_join "_" parts Hne Hall).
    + apply list_elem_of_In, filter_In. split; [|apply endsWith_app].
      apply list_elem_of_In, list_elem_of_fmap.
      by exists {| Key := join "_" parts +:+ "_tree.json" |}.
Qed.

Lemma stored_dataset_is_listed_witness :
  ∃ l : list Listing,
    availableDatasets None
      (λ _, Ok [ {| Key := "ebola_meta.json" |}; {| Key := "ebola_tree.json" |} ])
      InrbDrcSource = Ok l ∧
    {| request := "inrb-drc/ebola" |} ∈ l.
Proof.
  apply (stored_dataset_is_listed None
           (λ _, Ok [ {| Key := "ebola_meta.json" |}; {| Key := "ebola_tree.json" |} ])
           [ {| Key := "ebola_meta.json" |}; {| Key := "ebola_tree.json" |} ]
           [["ebola"]] 0 ["ebola"] "ebola_tree.json").
  - reflexivity.
  - discriminate.
  - repeat constructor.
  - reflexivity.
  - apply list_elem_of_further, list_elem_of_here.
  - reflexivity.
Defined.

(** ** The registered sources *)

Lemma registered_classes (key : string) (c : SourceClass) :
  Map_get module_exports key = Some c →
  (key = "live" ∧ c = LiveSource) ∨
  (key = "staging" ∧ c = StagingSource) ∨
  (key = "community" ∧ c = CommunitySource) ∨
  (key = "inrb-drc" ∧ c = InrbDrcSource).
Proof.
  rewrite module_exports_lookup.
  repeat (case_decide; [intros [= <-]; subst; tauto|]). done.
Qed.

(** X12: no registered source throws when asked about visibility: the
    abstract classes, which do, are not in the registry.  A request without
    a user sees every registered source except "inrb-drc". *)
Theorem registered_sources_answer_visibility
    (key : string) (c : SourceClass) (user : User) :
  Map_get module_exports key = Some c →
  ∃ b : bool,
    visibleToUser c user = Ok b ∧
    (key ≠ "inrb-drc" → b = true) ∧
    (user = None → (b = true ↔ key ≠ "inrb-drc")).
Proof.
  intros [[-> ->]|[[-> ->]|[[-> ->]|[-> ->]]]]%registered_classes;
    eexists; (split; [reflexivity|]); split; try done.
  intros ->. simpl. split; [done|]. by intros [].
Qed.

Lemma registered_sources_answer_visibility_witness :
  ∃ b : bool,
    visibleToUser InrbDrcSource None = Ok b ∧
    ("inrb-drc" ≠ "inrb-drc" → b = true) ∧
    (@None UserObj = None → (b = true ↔ "inrb-drc" ≠ "inrb-drc")).
Proof.
  apply (registered_sources_answer_visibility "inrb-drc" InrbDrcSource None).
  reflexivity.
Defined.

(** X13: for a registered source, [urlFor] of its dataset always gets as
    far as the platform: the result is what the URL class answers for the
    base name and a base URL, or what the S3 client signs for the base name
    in a bucket.  None of the "must be implemented" faults can occur. *)
Theorem registered_sources_resolve
    (S3sign : string → option string → string → result string)
    (URL : string → string → result string)
    (key : string) (c : SourceClass)
    (h : store) (a : ref) (parts : list string) (type : string) :
  Map_get module_exports key = Some c →
  h !! a = Some parts →
  ∃ (d : DatasetObj) (b : string),
    dataset c a = Ok d ∧
    fst (baseNameFor d type h) = Ok b ∧
    ((∃ base, fst (urlFor S3sign URL d type h) = URL b base) ∨
     (∃ bk, fst (urlFor S3sign URL d type h)
              = S3sign "getObject" (Some bk) b)).
Proof.
  intros [[-> ->]|[[-> ->]|[[-> ->]|[-> ->]]]]%registered_classes Hp;
    eexists; eexists; (split; [reflexivity|]);
    rewrite (baseNameFor_Some _ _ _ parts), (urlFor_Some _ _ _ _ _ parts)
      by done;
    (split; [reflexivity|]); simpl; eauto.
Qed.

Lemma registered_sources_resolve_witness :
  ∃ (d : DatasetObj) (b : string),
    dataset StagingSource 0 = Ok d ∧
    fst (baseNameFor d "tree" [["zika"]]) = Ok b ∧
    ((∃ base, fst (urlFor (λ _ _ _, Ok "") (λ input base, Ok (base +:+ input))
                     d "tree" [["zika"]])
                = Ok (base +:+ b)) ∨
     (∃ bk : string,
        fst (urlFor (λ _ _ _, Ok "") (λ input base, Ok (base +:+ input))
               d "tree" [["zika"]])
          = Ok "")).
Proof.
  apply (registered_sources_resolve
           (λ _ _ _, Ok "") (λ input base, Ok (base +:+ input))
           "staging" StagingSource [["zika"]] 0 ["zika"] "tree");
    reflexivity.
Defined.

(** X16: access to the private tenant grows with the groups: a user whose
    groups include those of a user with access has access too, whatever
    the order or repetition of the groups. *)
Theorem inrb_visibility_is_monotone (gs gs' : list string) :
  gs ⊆ gs' →
  visibleToUser InrbDrcSource (Some {| groups := Some gs |}) = Ok true →
  visibleToUser InrbDrcSource (Some {| groups := Some gs' |}) = Ok true.
Proof.
  intros Hsub [= Hin]. unfold visibleToUser, invoke. simpl. f_equal.
  unfold includes in *. rewrite existsb_exists in *.
  destruct Hin as (x & Hx%list_elem_of_In & Heq). exists x.
  split; [|done]. by apply list_elem_of_In, Hsub.
Qed.

Lemma inrb_visibility_is_monotone_witness :
  visibleToUser InrbDrcSource
    (Some {| groups := Some ["staff"; "inrb"; "inrb"] |}) = Ok true.
Proof.
  apply (inrb_visibility_is_monotone ["inrb"] ["staff"; "inrb"; "inrb"]).
  - apply (bool_decide_unpack _). vm_compute. exact I.
  - reflexivity.
Defined.

(** ** The shape of base names *)

(** X17: on a well-formed store [baseNameFor] does not fail, for any class
    and any path parts, the empty ones included, and the name ends in
    "_<type>.json"; so the name of a tree file always passes the filter of
    the bucket listing. *)
Theorem basename_ends_in_type (d : DatasetObj) (type : string) (h : store)
    (parts : list string) :
  h !! pathParts d = Some parts →
  ∃ b : string,
    fst (baseNameFor d type h) = Ok b ∧
    endsWith b ("_" +:+ type +:+ ".json") = true ∧
    (type = "tree" → endsWith b "_tree.json" = true).
Proof.
  intros Hp. eexists. rewrite (baseNameFor_Some _ _ _ parts) by done.
  split; [reflexivity|]. split; [apply endsWith_app|].
  intros ->. apply (endsWith_app _ "_tree.json").
Qed.

Lemma basename_ends_in_type_witness :
  ∃ b : string,
    fst (baseNameFor (new_Dataset CommunityDataset CommunitySource 0) "tree"
           [[]]) = Ok b ∧
    endsWith b ("_" +:+ "tree" +:+ ".json") = true ∧
    ("tree" = "tree" → endsWith b "_tree.json" = true).
Proof.
  apply (basename_ends_in_type
           (new_Dataset CommunityDataset CommunitySource 0) "tree" [[]] []).
  reflexivity.
Defined.

(** X18: the files of one dataset do not collide: for different types the
    base names of a dataset are different. *)
Theorem basename_separates_types (d : DatasetObj) (type1 type2 : string)
    (h1 h2 : store) (parts : list string) :
  h1 !! pathParts d = Some parts →
  h2 !! pathParts d = Some parts →
  type1 ≠ type2 →
  fst (baseNameFor d type1 h1) ≠ fst (baseNameFor d type2 h2).
Proof.
  intros Hp1 Hp2 Hne.
  rewrite (baseNameFor_Some _ _ _ parts), (baseNameFor_Some _ _ _ parts)
    by done.
  simpl. intros [= E].
  apply (inj (String.app _)) in E. apply (inj (String.app "_")) in E.
  by apply app_inj_r in E.
Qed.

Lemma basename_separates_types_witness :
  fst (baseNameFor (new_Dataset Dataset LiveSource 0) "tree" [["zika"]])
    = Ok "zika_tree.json" ∧
  fst (baseNameFor (new_Dataset Dataset LiveSource 0) "tree" [["zika"]])
    ≠ fst (baseNameFor (new_Dataset Dataset LiveSource 0) "meta"
             [["zika"]; ["zika"]]).
Proof.
  split; [reflexivity|].
  apply (basename_separates_types (new_Dataset Dataset LiveSource 0)
           "tree" "meta" [["zika"]] [["zika"]; ["zika"]] ["zika"]);
    [reflexivity|reflexivity|discriminate].
Defined.
